(** * Neural Scan Analysis: the upload page ([src/app/page.tsx])

    A shallow embedding of the [Home] component: the file validator, the
    object-URL preview lifecycle, the submit handler with its progress
    interval, and the rendering rules for a prediction.

    React state ([useState]) is an explicit record; the browser resources the
    handlers touch (blob URLs, timers, the toast log, requests in flight) sit
    next to it, so that every handler is a function on one [State]. Handlers
    are written in a small state-and-exception monad, statement by statement
    after the source. *)

From Stdlib Require Import ZArith String List Bool Lia.
From stdpp Require Import base option gmap strings.

Local Open Scope Z_scope.
Local Open Scope string_scope.

(** ** Types ([types/index.ts]) *)

(** What the page reads of a DOM [File]. *)
Record File := mkFile {
  name : string;
  type : string;
  size : Z
}.

Record PredictionResponse := mkPrediction {
  success : bool;
  prediction : string;
  confidence_class : Z;
  message : string
}.

(** The handler reads [errorData.message || ...], so the field may be absent. *)
Module APIError.
Record t := mk {
  error : option string;
  message : option string
}.
End APIError.

Record UploadStatus := mkStatus {
  isLoading : bool;
  progress : Z;
  error : option string
}.

Module ValidationResult.
Record t := mk {
  isValid : bool;
  error : option string
}.
End ValidationResult.

Inductive Variant := default | destructive.

Record Toast := mkToast {
  title : string;
  description : option string;
  variant : Variant
}.

(** ** Constants *)

Definition MAX_FILE_SIZE : Z := 5 * 1024 * 1024.

Definition ACCEPTED_IMAGE_TYPES : list string :=
  ["image/jpeg"; "image/png"; "image/gif"].

(** [Array.prototype.includes] on an array of strings. *)
Definition array_includes (xs : list string) (x : string) : bool :=
  existsb (String.eqb x) xs.

(** [String.prototype.includes]: [sub] starts at some position of [s]. *)
Fixpoint includes (s sub : string) : bool :=
  String.prefix sub s ||
  match s with
  | EmptyString => false
  | String _ rest => includes rest sub
  end.

(** ** Validator *)

(** [file] is [None] when the caller passes [undefined] (a drop without
    files). *)
Definition validateFile (file : option File) : ValidationResult.t :=
  match file with
  | None => ValidationResult.mk false (Some "Please select a file")
  | Some f =>
      if negb (array_includes ACCEPTED_IMAGE_TYPES (type f)) then
        ValidationResult.mk false
          (Some "Please upload a valid image file (JPEG, PNG, or GIF)")
      else if size f >? MAX_FILE_SIZE then
        ValidationResult.mk false (Some "File size must be less than 5MB")
      else ValidationResult.mk true None
  end.

(** ** State *)

(** The four [useState] cells of [Home], then the environment: the blob-URL
    store behind [URL.createObjectURL] / [URL.revokeObjectURL], the timers of
    [setInterval] / [setTimeout], the submissions awaiting [fetch], and the
    toasts raised so far (newest first).

    A preview URL is identified by the number the store gave it. An interval
    is stored with the value of [uploadStatus.progress] its callback closed
    over: the callback of line 110 reads the [uploadStatus] of the render in
    which [handleSubmit] ran, not the current one. A submission is identified
    by its [progressInterval]. *)
Record State := mkState {
  selectedFile : option File;
  preview : option nat;
  predictionResult : option PredictionResponse;
  uploadStatus : UploadStatus;
  objectURLs : gset nat;
  nextURL : nat;
  intervals : gmap nat Z;
  timeouts : gset nat;
  nextTimer : nat;
  inflight : gset nat;
  toasts : list Toast
}.

Definition initialState : State :=
  {| selectedFile := None;
     preview := None;
     predictionResult := None;
     uploadStatus := mkStatus false 0 None;
     objectURLs := ∅;
     nextURL := 0%nat;
     intervals := ∅;
     timeouts := ∅;
     nextTimer := 0%nat;
     inflight := ∅;
     toasts := [] |}.

(** ** The handler monad *)

(** What a [throw] carries, as far as [error instanceof Error] and
    [error.message] can tell. *)
Inductive Thrown :=
| ErrorObject (msg : string)
| NotAnError.

Inductive Completion (A : Type) :=
| Normal (a : A)
| Abrupt (e : Thrown).
Arguments Normal {A} a.
Arguments Abrupt {A} e.

Definition M (A : Type) : Type := State -> Completion A * State.

Definition ret {A} (a : A) : M A := fun st => (Normal a, st).

Definition bind {A B} (m : M A) (k : A -> M B) : M B :=
  fun st =>
    match m st with
    | (Normal a, st') => k a st'
    | (Abrupt e, st') => (Abrupt e, st')
    end.

Definition throw {A} (e : Thrown) : M A := fun st => (Abrupt e, st).

(** [try { body } catch (error) { handler error }] *)
Definition try_catch {A} (body : M A) (handler : Thrown -> M A) : M A :=
  fun st =>
    match body st with
    | (Normal a, st') => (Normal a, st')
    | (Abrupt e, st') => handler e st'
    end.

(** [try { body } finally { cleanup }] *)
Definition try_finally {A} (body : M A) (cleanup : M unit) : M A :=
  fun st =>
    match body st with
    | (c, st') =>
        match cleanup st' with
        | (Normal _, st'') => (c, st'')
        | (Abrupt e, st'') => (Abrupt e, st'')
        end
    end.

Definition modify (f : State -> State) : M unit := fun st => (Normal tt, f st).

Definition exec {A} (m : M A) (st : State) : State := snd (m st).

Declare Scope handler_scope.
Delimit Scope handler_scope with handler.
Notation "'let*' x ':=' m 'in' k" := (bind m (fun x => k))
  (at level 10, x name, m at level 100, k at level 200) : handler_scope.
Notation "m ';;' k" := (bind m (fun _ => k))
  (at level 100, k at level 200, right associativity) : handler_scope.
Local Open Scope handler_scope.

(** ** State setters and browser primitives *)

Definition setSelectedFile (v : option File) : M unit :=
  modify (fun st =>
    mkState v (preview st) (predictionResult st) (uploadStatus st)
      (objectURLs st) (nextURL st) (intervals st) (timeouts st)
      (nextTimer st) (inflight st) (toasts st)).

Definition setPreview (v : option nat) : M unit :=
  modify (fun st =>
    mkState (selectedFile st) v (predictionResult st) (uploadStatus st)
      (objectURLs st) (nextURL st) (intervals st) (timeouts st)
      (nextTimer st) (inflight st) (toasts st)).

Definition setPredictionResult (v : option PredictionResponse) : M unit :=
  modify (fun st =>
    mkState (selectedFile st) (preview st) v (uploadStatus st)
      (objectURLs st) (nextURL st) (intervals st) (timeouts st)
      (nextTimer st) (inflight st) (toasts st)).

(** [setUploadStatus(prev => f prev)]; a plain value is [fun _ => v]. *)
Definition setUploadStatus (f : UploadStatus -> UploadStatus) : M unit :=
  modify (fun st =>
    mkState (selectedFile st) (preview st) (predictionResult st)
      (f (uploadStatus st))
      (objectURLs st) (nextURL st) (intervals st) (timeouts st)
      (nextTimer st) (inflight st) (toasts st)).

Definition toast (t : Toast) : M unit :=
  modify (fun st =>
    mkState (selectedFile st) (preview st) (predictionResult st)
      (uploadStatus st)
      (objectURLs st) (nextURL st) (intervals st) (timeouts st)
      (nextTimer st) (inflight st) (t :: toasts st)).

(** Revoking a URL the store does not hold does nothing. *)
Definition revokeObjectURL (u : nat) : M unit :=
  modify (fun st =>
    mkState (selectedFile st) (preview st) (predictionResult st)
      (uploadStatus st)
      (objectURLs st ∖ {[u]}) (nextURL st) (intervals st) (timeouts st)
      (nextTimer st) (inflight st) (toasts st)).

Definition createObjectURL (f : File) : M nat :=
  fun st =>
    (Normal (nextURL st),
     mkState (selectedFile st) (preview st) (predictionResult st)
       (uploadStatus st)
       ({[nextURL st]} ∪ objectURLs st) (S (nextURL st)) (intervals st)
       (timeouts st) (nextTimer st) (inflight st) (toasts st)).

(** [setInterval(cb, 300)], [cb] having closed over progress [captured]. *)
Definition setInterval (captured : Z) : M nat :=
  fun st =>
    (Normal (nextTimer st),
     mkState (selectedFile st) (preview st) (predictionResult st)
       (uploadStatus st)
       (objectURLs st) (nextURL st)
       (<[nextTimer st := captured]> (intervals st))
       (timeouts st) (S (nextTimer st)) (inflight st) (toasts st)).

Definition clearInterval (iv : nat) : M unit :=
  modify (fun st =>
    mkState (selectedFile st) (preview st) (predictionResult st)
      (uploadStatus st)
      (objectURLs st) (nextURL st) (delete iv (intervals st)) (timeouts st)
      (nextTimer st) (inflight st) (toasts st)).

(** [setTimeout(cb, 1000)] *)
Definition setTimeout : M nat :=
  fun st =>
    (Normal (nextTimer st),
     mkState (selectedFile st) (preview st) (predictionResult st)
       (uploadStatus st)
       (objectURLs st) (nextURL st) (intervals st)
       ({[nextTimer st]} ∪ timeouts st) (S (nextTimer st)) (inflight st)
       (toasts st)).

Definition removeTimeout (t : nat) : M unit :=
  modify (fun st =>
    mkState (selectedFile st) (preview st) (predictionResult st)
      (uploadStatus st)
      (objectURLs st) (nextURL st) (intervals st) (timeouts st ∖ {[t]})
      (nextTimer st) (inflight st) (toasts st)).

(** The submission is suspended at [await fetch(...)]. *)
Definition suspend (iv : nat) : M unit :=
  modify (fun st =>
    mkState (selectedFile st) (preview st) (predictionResult st)
      (uploadStatus st)
      (objectURLs st) (nextURL st) (intervals st) (timeouts st)
      (nextTimer st) ({[iv]} ∪ inflight st) (toasts st)).

Definition resume (iv : nat) : M unit :=
  modify (fun st =>
    mkState (selectedFile st) (preview st) (predictionResult st)
      (uploadStatus st)
      (objectURLs st) (nextURL st) (intervals st) (timeouts st)
      (nextTimer st) (inflight st ∖ {[iv]}) (toasts st)).

(** ** Selecting a file *)

Definition handleFileSelection (file : option File) : M unit :=
  let validation := validateFile file in
  if negb (ValidationResult.isValid validation) then
    toast {| title := "Invalid File";
             description := ValidationResult.error validation;
             variant := destructive |}
  else
    let* preview_ := (fun st => (Normal (preview st), st)) in
    (match preview_ with
     | Some u => revokeObjectURL u
     | None => ret tt
     end) ;;
    setSelectedFile file ;;
    (match file with
     | Some f => let* u := createObjectURL f in setPreview (Some u)
     | None => ret tt
     end) ;;
    setPredictionResult None.

(** [e.dataTransfer.files[0]] is [undefined] for a drop without files. *)
Definition handleDrop (files : list File) : M unit :=
  handleFileSelection (head files).

Definition handleFileInputChange (files : option (list File)) : M unit :=
  match files ≫= head with
  | Some f => handleFileSelection (Some f)
  | None => ret tt
  end.

Definition resetForm : M unit :=
  let* preview_ := (fun st => (Normal (preview st), st)) in
  (match preview_ with
   | Some u => revokeObjectURL u
   | None => ret tt
   end) ;;
  setSelectedFile None ;;
  setPreview None ;;
  setPredictionResult None ;;
  setUploadStatus (fun _ => mkStatus false 0 None).

(** The cleanup of the effect on [preview] (lines 28-35): it runs with the
    [preview] of the render that installed it, when [preview] has changed and
    at unmount. *)
Definition effectCleanup (rendered : option nat) : M unit :=
  match rendered with
  | Some u => revokeObjectURL u
  | None => ret tt
  end.

(** ** Submitting *)

(** A [Response] as [handleSubmit] reads it: [response.ok] decides the type
    the body is cast to, and [response.json()] may itself reject. *)
Inductive Response :=
| HttpFailure (json : Completion APIError.t)
| HttpOk (json : Completion PredictionResponse).

Definition ok (r : Response) : bool :=
  match r with
  | HttpOk _ => true
  | HttpFailure _ => false
  end.

(** How the promise of [fetch] settles. *)
Inductive Settled :=
| Rejected (e : Thrown)
| Fulfilled (response : Response).

(** [await p] for a promise whose outcome is known. *)
Definition await {A} (c : Completion A) : M A :=
  match c with
  | Normal a => ret a
  | Abrupt e => throw e
  end.

(** [s || d] on an optional string: the empty string is falsy. *)
Definition or_else (s : option string) (d : string) : string :=
  match s with
  | Some (String c rest) => String c rest
  | _ => d
  end.

Definition updateProgress (p : Z) : M unit :=
  setUploadStatus (fun prev =>
    mkStatus (isLoading prev) (Z.min p 90) (error prev)).

(** [handleSubmit] up to [await fetch(...)]. The interval callback closes over
    the [uploadStatus] this invocation sees. *)
Definition handleSubmit : M unit :=
  fun st =>
    match selectedFile st with
    | None => ret tt st
    | Some _ =>
        (setUploadStatus (fun _ => mkStatus true 0 None) ;;
         let* progressInterval := setInterval (progress (uploadStatus st)) in
         suspend progressInterval) st
    end.

(** [handleSubmit] from the point where [fetch] has settled. *)
Definition handleSubmit_settled (progressInterval : nat) (s : Settled)
  : M unit :=
  try_finally
    (try_catch
       (let* response :=
          await (match s with
                 | Rejected e => Abrupt e
                 | Fulfilled r => Normal r
                 end) in
        clearInterval progressInterval ;;
        setUploadStatus (fun prev =>
          mkStatus (isLoading prev) 100 (error prev)) ;;
        match response with
        | HttpFailure json =>
            let* errorData := await json in
            throw (ErrorObject
                     (or_else (APIError.message errorData) "Analysis failed"))
        | HttpOk json =>
            let* data := await json in
            setPredictionResult (Some data) ;;
            toast {| title := "Analysis Complete";
                     description := Some (message data);
                     variant := if success data then default
                                else destructive |}
        end)
       (fun error =>
          let errorMessage :=
            match error with
            | ErrorObject msg => msg
            | NotAnError =>
                "Unable to process the brain scan. Please try again."
            end in
          toast {| title := "Analysis Failed";
                   description := Some errorMessage;
                   variant := destructive |} ;;
          setPredictionResult None))
    (setUploadStatus (fun prev =>
       mkStatus false (progress prev) (error prev)) ;;
     let* _ := setTimeout in ret tt).

(** The callback of line 109-111, for the interval [iv]. *)
Definition intervalCallback (iv : nat) : M unit :=
  fun st =>
    match intervals st !! iv with
    | Some captured => updateProgress (captured + 5) st
    | None => ret tt st
    end.

(** The callback of line 148. *)
Definition timeoutCallback : M unit :=
  setUploadStatus (fun prev => mkStatus (isLoading prev) 0 (error prev)).

(** ** Rendering rules *)

(** [disabled] of the submit button (line 226). *)
Definition submitDisabled (st : State) : bool :=
  negb (bool_decide (is_Some (selectedFile st)))
  || isLoading (uploadStatus st).

(** [variant] of the result [Alert]: lines 258-262 and 265-269 put the same
    test on the colours and on the title. *)
Definition alertVariant (r : PredictionResponse) : Variant :=
  if includes (prediction r) "No tumor" then default else destructive.

Definition alertTitle (r : PredictionResponse) : string :=
  if includes (prediction r) "No tumor" then "No Tumor Detected"
  else "Tumor Detected".

Definition confidenceLabel (r : PredictionResponse) : string :=
  if Z.eqb (confidence_class r) 1 then "High" else "Low".

(** ** Events *)

Inductive Event :=
| SelectFile (file : option File)
| ClickReset
| ClickSubmit
| IntervalFires (iv : nat)
| FetchSettles (iv : nat) (s : Settled)
| TimeoutFires (t : nat).

(** A disabled button dispatches no click; a cleared timer, a fired timeout
    and a settled promise do not run again. *)
Definition handler (ev : Event) : M unit :=
  fun st =>
    match ev with
    | SelectFile file => handleFileSelection file st
    | ClickReset => resetForm st
    | ClickSubmit =>
        if submitDisabled st then ret tt st else handleSubmit st
    | IntervalFires iv => intervalCallback iv st
    | FetchSettles iv s =>
        if bool_decide (iv ∈ inflight st)
        then (resume iv ;; handleSubmit_settled iv s) st
        else ret tt st
    | TimeoutFires t =>
        if bool_decide (t ∈ timeouts st)
        then (removeTimeout t ;; timeoutCallback) st
        else ret tt st
    end.

(** One event and the render that follows it: when [preview] has changed, the
    cleanup installed by the previous render runs. *)
Definition step (st : State) (ev : Event) : State :=
  let st' := exec (handler ev) st in
  if bool_decide (preview st' = preview st) then st'
  else exec (effectCleanup (preview st)) st'.

Definition run (evs : list Event) (st : State) : State :=
  fold_left step evs st.

(** Unmounting the page runs the cleanup of the last render. *)
Definition unmount (st : State) : State :=
  exec (effectCleanup (preview st)) st.

(** The blob URLs the page still refers to: the current [preview], if any. *)
Definition previewURLs (st : State) : gset nat :=
  match preview st with
  | Some u => {[u]}
  | None => ∅
  end.

(** A state in which a scan is selected and its analysis is in flight:
    interval 0 is ticking and the request identified by it awaits [fetch]. *)
Definition scan : File := mkFile "scan.png" "image/png" 204800.

Definition submitting : State :=
  run [SelectFile (Some scan); ClickSubmit] initialState.

(** Two response bodies of a request that came back with [response.ok]:
    one in which the service reports failure, one naming a tumour. *)
Definition declined : PredictionResponse :=
  mkPrediction false "Unable to classify" 0 "Prediction failed".

Definition glioma : PredictionResponse :=
  mkPrediction true "Glioma detected" 0 "Prediction successful".

(** The variant of the latest toast. *)
Definition lastToastVariant (st : State) : option Variant :=
  variant <$> head (toasts st).

(** The preview handle is the only blob URL alive, and the store has not
    handed out its number again. *)
Definition previewInv (st : State) : Prop :=
  objectURLs st = previewURLs st
  /\ forall u, preview st = Some u -> (u < nextURL st)%nat.

(** ** Invariants of the page *)

(** Progress, and every progress an interval has closed over, is a
    percentage. *)
Definition progressInv (st : State) : Prop :=
  0 <= progress (uploadStatus st) <= 100
  /\ forall iv c, intervals st !! iv = Some c -> 0 <= c <= 100.

(** Timer numbers are handed out in increasing order, and a request in
    flight still has its interval. *)
Definition timersInv (st : State) : Prop :=
  (forall iv, iv ∈ dom (intervals st) -> (iv < nextTimer st)%nat)
  /\ (forall t, t ∈ timeouts st -> (t < nextTimer st)%nat)
  /\ inflight st ⊆ dom (intervals st).

(** A file is selected exactly when a preview is shown. *)
Definition selectionInv (st : State) : Prop :=
  is_Some (selectedFile st) <-> is_Some (preview st).

(** The event is a [fetch] that rejects. *)
Definition isRejection (ev : Event) : bool :=
  match ev with
  | FetchSettles _ (Rejected _) => true
  | _ => false
  end.

(** What the page shows: the preview with its reset button (line 202), the
    progress bar (line 244), the result panel (line 256). *)
Definition showsPreview (st : State) : bool :=
  bool_decide (is_Some (preview st)).

Definition showsProgress (st : State) : bool :=
  isLoading (uploadStatus st).

Definition showsResult (st : State) : bool :=
  bool_decide (is_Some (predictionResult st)).

(** * Properties *)

(** ** Strings and the allow-list *)

Lemma array_includes_In (xs : list string) (x : string) :
  array_includes xs x = true <-> In x xs.
Proof.
  unfold array_includes. rewrite existsb_exists. split.
  - intros [y [Hy Heq]]. apply String.eqb_eq in Heq. now subst.
  - intros Hin. exists x. split; [assumption | apply String.eqb_refl].
Qed.

Lemma prefix_append (sub s : string) :
  String.prefix sub s = true <-> exists post, s = sub ++ post.
Proof.
  revert s. induction sub as [| c sub IH]; intros s.
  - split; [intros _; now exists s | intros _; now destruct s].
  - destruct s as [| d s]; simpl.
    + split; [discriminate | intros [post Hpost]; discriminate].
    + destruct (Ascii.ascii_dec c d) as [-> | Hne].
      * rewrite IH. split; intros [post Hpost]; exists post.
        -- now rewrite Hpost.
        -- now injection Hpost.
      * split; [discriminate |].
        intros [post Hpost]. injection Hpost as Hcd _. congruence.
Qed.

Lemma includes_nil (sub : string) :
  includes "" sub = String.prefix sub "".
Proof. unfold includes. apply orb_false_r. Qed.

Lemma includes_cons (c : Ascii.ascii) (s sub : string) :
  includes (String c s) sub = String.prefix sub (String c s) || includes s sub.
Proof. reflexivity. Qed.

(** [includes] is the substring test. *)
Lemma includes_substring (s sub : string) :
  includes s sub = true <-> exists pre post, s = pre ++ sub ++ post.
Proof.
  induction s as [| c s IH].
  - rewrite includes_nil, prefix_append. split.
    + intros [post Hpost]. now exists EmptyString, post.
    + intros [pre [post Hpost]]. destruct pre; [now exists post | discriminate].
  - rewrite includes_cons, orb_true_iff, prefix_append, IH. split.
    + intros [[post Hpost] | [pre [post Hpost]]].
      * now exists EmptyString, post.
      * exists (String c pre), post. simpl. now rewrite Hpost.
    + intros [pre [post Hpost]]. destruct pre as [| d pre]; simpl in Hpost.
      * left. now exists post.
      * right. exists pre, post. now injection Hpost.
Qed.

(** ** Validator *)

Lemma validateFile_valid_iff (file : option File) :
  ValidationResult.isValid (validateFile file) = true <->
  exists f, file = Some f
            /\ In (type f) ACCEPTED_IMAGE_TYPES
            /\ size f <= MAX_FILE_SIZE.
Proof.
  unfold validateFile. destruct file as [f |].
  - destruct (array_includes ACCEPTED_IMAGE_TYPES (type f)) eqn:Hty;
      cbn [negb ValidationResult.isValid].
    + apply array_includes_In in Hty.
      destruct (size f >? MAX_FILE_SIZE) eqn:Hsz;
        cbn [ValidationResult.isValid].
      * split; [discriminate |].
        intros [g [Hg [_ Hle]]]. injection Hg as <-.
        apply Z.gtb_lt in Hsz. lia.
      * split; [| reflexivity]. intros _. exists f.
        repeat split; [assumption |].
        rewrite Z.gtb_ltb in Hsz. apply Z.ltb_ge in Hsz. exact Hsz.
    + split; [discriminate |].
      intros [g [Hg [Hin _]]]. injection Hg as <-.
      apply array_includes_In in Hin. congruence.
  - split; [discriminate | intros [g [Hg _]]; discriminate].
Qed.

(** C5: [validateFile] accepts exactly a present file whose declared type is
    image/jpeg, image/png or image/gif and whose size is at most 5,242,880
    bytes (so a file of exactly that size passes); a missing file, a type off
    the list, and a listed type above the ceiling are each rejected with the
    message of their own check. *)
Theorem validateFile_spec (file : option File) :
  (ValidationResult.isValid (validateFile file) = true <->
   exists f, file = Some f
             /\ In (type f) ["image/jpeg"; "image/png"; "image/gif"]
             /\ size f <= 5242880)
  /\ (file = None ->
      validateFile file =
      ValidationResult.mk false (Some "Please select a file"))
  /\ (forall f, file = Some f ->
      ~ In (type f) ["image/jpeg"; "image/png"; "image/gif"] ->
      validateFile file =
      ValidationResult.mk false
        (Some "Please upload a valid image file (JPEG, PNG, or GIF)"))
  /\ (forall f, file = Some f ->
      In (type f) ["image/jpeg"; "image/png"; "image/gif"] ->
      size f > 5242880 ->
      validateFile file =
      ValidationResult.mk false (Some "File size must be less than 5MB"))
  /\ (forall f, file = Some f ->
      In (type f) ["image/jpeg"; "image/png"; "image/gif"] ->
      size f = 5242880 ->
      validateFile file = ValidationResult.mk true None).
Proof.
  split; [apply validateFile_valid_iff |].
  split; [intros ->; reflexivity |].
  split; [| split]; intros f -> Hty.
  - unfold validateFile.
    destruct (array_includes ACCEPTED_IMAGE_TYPES (type f)) eqn:E;
      [| reflexivity].
    apply array_includes_In in E. contradiction.
  - intros Hsz. unfold validateFile.
    apply (array_includes_In ACCEPTED_IMAGE_TYPES) in Hty. rewrite Hty.
    cbn [negb].
    replace (size f >? MAX_FILE_SIZE) with true; [reflexivity |].
    symmetry. apply Z.gtb_lt. unfold MAX_FILE_SIZE. lia.
  - intros Hsz. unfold validateFile.
    apply (array_includes_In ACCEPTED_IMAGE_TYPES) in Hty.
    rewrite Hty, Hsz. reflexivity.
Qed.

Lemma validateFile_spec_witness :
  let f := mkFile "scan.gif" "image/gif" 5242880 in
  ValidationResult.isValid (validateFile (Some f)) = true
  /\ validateFile (Some f) = ValidationResult.mk true None
  /\ validateFile (Some (mkFile "scan.gif" "image/gif" 5242881)) =
     ValidationResult.mk false (Some "File size must be less than 5MB")
  /\ validateFile (Some (mkFile "scan.bmp" "image/bmp" 10)) =
     ValidationResult.mk false
       (Some "Please upload a valid image file (JPEG, PNG, or GIF)")
  /\ validateFile None =
     ValidationResult.mk false (Some "Please select a file").
Proof.
  intros f.
  split.
  { apply (proj1 (validateFile_spec (Some f))). exists f.
    split; [reflexivity |]. split; [simpl; tauto | simpl; lia]. }
  split.
  { apply (proj2 (proj2 (proj2 (proj2 (validateFile_spec (Some f))))) f);
      [reflexivity | simpl; tauto | reflexivity]. }
  split.
  { apply (proj1 (proj2 (proj2 (proj2
             (validateFile_spec
                (Some (mkFile "scan.gif" "image/gif" 5242881))))))
             (mkFile "scan.gif" "image/gif" 5242881));
      [reflexivity | simpl; tauto | simpl; lia]. }
  split.
  { apply (proj1 (proj2 (proj2
             (validateFile_spec (Some (mkFile "scan.bmp" "image/bmp" 10)))))
             (mkFile "scan.bmp" "image/bmp" 10)); [reflexivity |].
    simpl. intros [H | [H | [H | []]]]; discriminate H. }
  apply (proj1 (proj2 (validateFile_spec None))). reflexivity.
Defined.

(** ** Handlers, one event at a time *)

(** Each lemma of this section gives the state after one event as a record
    of the state before it. The handlers are straight-line code once the
    state is split into its fields and the branch is fixed, so they are run
    by call-by-value unfolding. *)

Ltac run_handlers :=
  cbv [step handler exec handleFileSelection resetForm handleSubmit
       handleSubmit_settled intervalCallback timeoutCallback updateProgress
       effectCleanup try_finally try_catch await bind ret throw
       setSelectedFile setPreview setPredictionResult setUploadStatus toast
       revokeObjectURL createObjectURL setInterval clearInterval setTimeout
       removeTimeout suspend resume modify previewURLs
       selectedFile preview predictionResult uploadStatus objectURLs nextURL
       intervals timeouts nextTimer inflight toasts fst snd negb].

Ltac same_preview :=
  rewrite (bool_decide_eq_true_2 (_ = _)) by reflexivity.

Lemma rejected_selection_step (st : State) (file : option File) :
  ValidationResult.isValid (validateFile file) = false ->
  step st (SelectFile file) =
  mkState (selectedFile st) (preview st) (predictionResult st)
    (uploadStatus st) (objectURLs st) (nextURL st) (intervals st)
    (timeouts st) (nextTimer st) (inflight st)
    (mkToast "Invalid File" (ValidationResult.error (validateFile file))
       destructive :: toasts st).
Proof.
  intros Hbad. destruct st.
  unfold step, handler, exec, handleFileSelection. rewrite Hbad.
  run_handlers. same_preview. reflexivity.
Qed.

Lemma accepted_selection_step (st : State) (f : File) :
  ValidationResult.isValid (validateFile (Some f)) = true ->
  (forall u, preview st = Some u -> (u < nextURL st)%nat) ->
  step st (SelectFile (Some f)) =
  mkState (Some f) (Some (nextURL st)) None (uploadStatus st)
    ({[nextURL st]} ∪ (objectURLs st ∖ previewURLs st)) (S (nextURL st))
    (intervals st) (timeouts st) (nextTimer st) (inflight st) (toasts st).
Proof.
  intros Hok Hfresh. destruct st as [sf [u |] pr us urls nu ivs tos nt inf ts].
  - assert (Hne : u <> nu)
      by (specialize (Hfresh u eq_refl); simpl in Hfresh; lia).
    unfold step, handler, exec, handleFileSelection. rewrite Hok.
    run_handlers.
    rewrite (bool_decide_eq_false_2 (_ = _)) by congruence.
    f_equal. apply set_eq. intros x.
    rewrite !elem_of_difference, !elem_of_union, !elem_of_difference,
      !elem_of_singleton.
    split; [intros [H _]; exact H |].
    intros H. split; [exact H |]. destruct H as [-> | [_ H]]; congruence.
  - unfold step, handler, exec, handleFileSelection. rewrite Hok.
    run_handlers.
    rewrite (bool_decide_eq_false_2 (_ = _)) by discriminate.
    now rewrite difference_empty_L.
Qed.

Lemma reset_state (st : State) :
  step st ClickReset =
  mkState None None None (mkStatus false 0 None)
    (objectURLs st ∖ previewURLs st) (nextURL st) (intervals st)
    (timeouts st) (nextTimer st) (inflight st) (toasts st).
Proof.
  destruct st as [sf [u |] pr us urls nu ivs tos nt inf ts]; run_handlers.
  - rewrite (bool_decide_eq_false_2 (_ = _)) by discriminate.
    now rewrite difference_twice_L.
  - same_preview. now rewrite difference_empty_L.
Qed.

Lemma disabled_submit_step (st : State) :
  submitDisabled st = true -> step st ClickSubmit = st.
Proof.
  intros Hdis. unfold step, handler, exec. rewrite Hdis.
  run_handlers. now same_preview.
Qed.

Lemma enabled_submit_step (st : State) :
  submitDisabled st = false ->
  step st ClickSubmit =
  mkState (selectedFile st) (preview st) (predictionResult st)
    (mkStatus true 0 None) (objectURLs st) (nextURL st)
    (<[nextTimer st := progress (uploadStatus st)]> (intervals st))
    (timeouts st) (S (nextTimer st)) ({[nextTimer st]} ∪ inflight st)
    (toasts st).
Proof.
  intros Hen. unfold step, handler, exec. rewrite Hen.
  destruct st as [[f |] pv pr us urls nu ivs tos nt inf ts].
  - run_handlers. now same_preview.
  - discriminate Hen.
Qed.

Lemma live_tick_step (st : State) (iv : nat) (captured : Z) :
  intervals st !! iv = Some captured ->
  step st (IntervalFires iv) =
  mkState (selectedFile st) (preview st) (predictionResult st)
    (mkStatus (isLoading (uploadStatus st)) (Z.min (captured + 5) 90)
       (error (uploadStatus st)))
    (objectURLs st) (nextURL st) (intervals st) (timeouts st) (nextTimer st)
    (inflight st) (toasts st).
Proof.
  intros Hiv. unfold step, handler, exec, intervalCallback. rewrite Hiv.
  destruct st. run_handlers. now same_preview.
Qed.

Lemma dead_tick_step (st : State) (iv : nat) :
  intervals st !! iv = None -> step st (IntervalFires iv) = st.
Proof.
  intros Hiv. unfold step, handler, exec, intervalCallback. rewrite Hiv.
  run_handlers. now same_preview.
Qed.

(** The state after [fetch] has settled, by outcome: only a parsed body of
    an [ok] response is stored and announced as "Analysis Complete"; every
    other outcome goes through [catch]. The interval is cleared and progress
    set to 100 when [fetch] is fulfilled, not when it is rejected. *)
Lemma settled_step (st : State) (iv : nat) (s : Settled) :
  iv ∈ inflight st ->
  step st (FetchSettles iv s) =
  mkState (selectedFile st) (preview st)
    (match s with
     | Fulfilled (HttpOk (Normal data)) => Some data
     | _ => None
     end)
    (mkStatus false
       (match s with
        | Rejected _ => progress (uploadStatus st)
        | Fulfilled _ => 100
        end)
       (error (uploadStatus st)))
    (objectURLs st) (nextURL st)
    (match s with
     | Rejected _ => intervals st
     | Fulfilled _ => delete iv (intervals st)
     end)
    ({[nextTimer st]} ∪ timeouts st) (S (nextTimer st))
    (inflight st ∖ {[iv]})
    (match s with
     | Fulfilled (HttpOk (Normal data)) =>
         mkToast "Analysis Complete" (Some (message data))
           (if success data then default else destructive)
     | Fulfilled (HttpFailure (Normal errorData)) =>
         mkToast "Analysis Failed"
           (Some (or_else (APIError.message errorData) "Analysis failed"))
           destructive
     | Rejected (ErrorObject msg)
     | Fulfilled (HttpOk (Abrupt (ErrorObject msg)))
     | Fulfilled (HttpFailure (Abrupt (ErrorObject msg))) =>
         mkToast "Analysis Failed" (Some msg) destructive
     | _ =>
         mkToast "Analysis Failed"
           (Some "Unable to process the brain scan. Please try again.")
           destructive
     end :: toasts st).
Proof.
  intros Hin. unfold step, handler, exec.
  rewrite (bool_decide_eq_true_2 (iv ∈ inflight st)) by assumption.
  destruct st.
  destruct s as [[msg |] | [[d | [msg |]] | [d | [msg |]]]];
    run_handlers; now same_preview.
Qed.

Lemma stale_settle_step (st : State) (iv : nat) (s : Settled) :
  iv ∉ inflight st -> step st (FetchSettles iv s) = st.
Proof.
  intros Hout. unfold step, handler, exec.
  rewrite (bool_decide_eq_false_2 (iv ∈ inflight st)) by assumption.
  run_handlers. now same_preview.
Qed.

Lemma timeout_step (st : State) (t : nat) :
  t ∈ timeouts st ->
  step st (TimeoutFires t) =
  mkState (selectedFile st) (preview st) (predictionResult st)
    (mkStatus (isLoading (uploadStatus st)) 0 (error (uploadStatus st)))
    (objectURLs st) (nextURL st) (intervals st) (timeouts st ∖ {[t]})
    (nextTimer st) (inflight st) (toasts st).
Proof.
  intros Hin. unfold step, handler, exec.
  rewrite (bool_decide_eq_true_2 (t ∈ timeouts st)) by assumption.
  destruct st. run_handlers. now same_preview.
Qed.

Lemma stale_timeout_step (st : State) (t : nat) :
  t ∉ timeouts st -> step st (TimeoutFires t) = st.
Proof.
  intros Hout. unfold step, handler, exec.
  rewrite (bool_decide_eq_false_2 (t ∈ timeouts st)) by assumption.
  run_handlers. now same_preview.
Qed.

(** ** Selecting and resetting *)

Lemma rejection_has_reason (file : option File) :
  ValidationResult.isValid (validateFile file) = false ->
  is_Some (ValidationResult.error (validateFile file)).
Proof.
  unfold validateFile.
  destruct file as [f |]; [| now eexists].
  destruct (array_includes _ _); cbn [negb]; [| now eexists].
  destruct (size f >? MAX_FILE_SIZE); [now eexists | discriminate].
Qed.

(** C10: selecting a file that [validateFile] rejects raises one destructive
    "Invalid File" toast carrying the validator's message and changes nothing
    else: selected file, preview, blob URLs, prediction result, upload status
    and timers are as before. *)
Theorem rejected_selection_only_notifies (st : State) (file : option File) :
  ValidationResult.isValid (validateFile file) = false ->
  let st' := step st (SelectFile file) in
  is_Some (ValidationResult.error (validateFile file))
  /\ toasts st' =
     mkToast "Invalid File" (ValidationResult.error (validateFile file))
       destructive :: toasts st
  /\ selectedFile st' = selectedFile st
  /\ preview st' = preview st
  /\ objectURLs st' = objectURLs st
  /\ predictionResult st' = predictionResult st
  /\ uploadStatus st' = uploadStatus st
  /\ intervals st' = intervals st
  /\ timeouts st' = timeouts st
  /\ inflight st' = inflight st.
Proof.
  intros Hbad st'. unfold st'. rewrite (rejected_selection_step st file Hbad).
  split; [now apply rejection_has_reason |].
  repeat split; reflexivity.
Qed.

Lemma rejected_selection_only_notifies_witness :
  let big := mkFile "scan.png" "image/png" 6000000 in
  ValidationResult.isValid (validateFile (Some big)) = false
  /\ selectedFile (step submitting (SelectFile (Some big))) = Some scan
  /\ toasts (step submitting (SelectFile (Some big))) =
     [mkToast "Invalid File" (Some "File size must be less than 5MB")
        destructive].
Proof.
  intros big.
  pose proof (rejected_selection_only_notifies submitting (Some big)
                eq_refl) as (_ & Htoast & Hsel & _).
  split; [reflexivity |].
  split; [rewrite Hsel; reflexivity | rewrite Htoast; reflexivity].
Defined.

(** C9: the reset button acts in one step, from any state: it revokes the
    preview URL if there is one, and leaves no selected file, no preview, no
    prediction result and the upload status not loading at progress 0; it
    registers no timer to do so. *)
Theorem resetForm_clears_everything (st : State) :
  let st' := step st ClickReset in
  selectedFile st' = None
  /\ preview st' = None
  /\ predictionResult st' = None
  /\ uploadStatus st' = mkStatus false 0 None
  /\ (forall u, preview st = Some u -> u ∉ objectURLs st')
  /\ objectURLs st' = objectURLs st ∖ previewURLs st
  /\ timeouts st' = timeouts st.
Proof.
  intros st'. unfold st'. rewrite reset_state. cbn.
  repeat (split; [reflexivity |]).
  split; [| split; reflexivity].
  intros u Hu. unfold previewURLs. rewrite Hu.
  rewrite elem_of_difference, elem_of_singleton. tauto.
Qed.

Lemma resetForm_clears_everything_witness :
  let done :=
    step submitting (FetchSettles 0%nat (Fulfilled (HttpOk (Normal glioma))))
  in
  preview done = Some 0%nat
  /\ predictionResult done = Some glioma
  /\ selectedFile (step done ClickReset) = None
  /\ predictionResult (step done ClickReset) = None
  /\ uploadStatus (step done ClickReset) = mkStatus false 0 None
  /\ 0%nat ∉ objectURLs (step done ClickReset).
Proof.
  intros done.
  destruct (resetForm_clears_everything done)
    as (Hsel & _ & Hres & Hst & Hrel & _).
  split; [reflexivity |]. split; [reflexivity |].
  split; [exact Hsel |]. split; [exact Hres |]. split; [exact Hst |].
  apply (Hrel 0%nat). reflexivity.
Defined.

(** ** Submitting *)

(** C1: while an analysis is in flight ([isLoading] is true) the submit
    button is disabled, so a submit click leaves the whole state as it is: no
    second interval, no second request, progress and result untouched. *)
Theorem submit_while_loading_is_noop (st : State) :
  isLoading (uploadStatus st) = true ->
  step st ClickSubmit = st.
Proof.
  intros Hload. apply disabled_submit_step.
  unfold submitDisabled. rewrite Hload. apply orb_true_r.
Qed.

Lemma submit_while_loading_is_noop_witness :
  isLoading (uploadStatus submitting) = true
  /\ step submitting ClickSubmit = submitting.
Proof.
  split; [reflexivity |].
  apply (submit_while_loading_is_noop submitting). reflexivity.
Defined.

(** The guard of a submission in flight is the button's [disabled];
    [handleSubmit] itself only checks for a selected file, and would start
    over if it were called. *)
Remark handleSubmit_guards_file_only :
  (forall st, selectedFile st = None -> exec handleSubmit st = st)
  /\ exec handleSubmit submitting <> submitting.
Proof.
  split.
  - intros st Hnone. unfold exec, handleSubmit, ret. now rewrite Hnone.
  - intros Heq. apply (f_equal nextTimer) in Heq. vm_compute in Heq.
    discriminate Heq.
Qed.

(** ** The end of a submission *)

(** After [fetch] has settled, whatever the outcome, the page is no longer
    loading and the timeout of the [finally] block is pending. *)
Lemma settled_finally (st : State) (iv : nat) (s : Settled) :
  iv ∈ inflight st ->
  let st' := step st (FetchSettles iv s) in
  isLoading (uploadStatus st') = false
  /\ timeouts st' = {[nextTimer st]} ∪ timeouts st
  /\ inflight st' = inflight st ∖ {[iv]}
  /\ selectedFile st' = selectedFile st
  /\ preview st' = preview st
  /\ objectURLs st' = objectURLs st.
Proof.
  intros Hin st'. unfold st'. rewrite (settled_step st iv s Hin).
  repeat split; reflexivity.
Qed.

(** C8: every settled submission leaves a timeout pending, and when a pending
    timeout fires it sets progress to 0 and nothing else: selected file,
    preview and its blob URL, prediction result, toasts, [isLoading] and the
    other timers stay as they were. *)
Theorem timeout_resets_progress_only (st : State) (iv : nat) (s : Settled) :
  iv ∈ inflight st ->
  let st1 := step st (FetchSettles iv s) in
  nextTimer st ∈ timeouts st1
  /\ forall t, t ∈ timeouts st1 ->
     step st1 (TimeoutFires t) =
     mkState (selectedFile st1) (preview st1) (predictionResult st1)
       (mkStatus (isLoading (uploadStatus st1)) 0 (error (uploadStatus st1)))
       (objectURLs st1) (nextURL st1) (intervals st1)
       (timeouts st1 ∖ {[t]}) (nextTimer st1) (inflight st1) (toasts st1).
Proof.
  intros Hin st1. split.
  - destruct (settled_finally st iv s Hin) as (_ & Ht & _).
    fold st1 in Ht. rewrite Ht. apply elem_of_union_l, elem_of_singleton.
    reflexivity.
  - intros t Ht. now apply timeout_step.
Qed.

Lemma timeout_resets_progress_only_witness :
  let ok_body := mkPrediction true "No tumor detected" 1 "ok" in
  let st1 :=
    step submitting (FetchSettles 0%nat (Fulfilled (HttpOk (Normal ok_body))))
  in
  let st2 := step st1 (TimeoutFires 1%nat) in
  progress (uploadStatus st1) = 100
  /\ progress (uploadStatus st2) = 0
  /\ predictionResult st2 = Some ok_body
  /\ selectedFile st2 = Some scan
  /\ preview st2 = Some 0%nat.
Proof.
  intros ok_body st1 st2.
  assert (Hin : 0%nat ∈ inflight submitting).
  { apply (bool_decide_unpack (0%nat ∈ inflight submitting)).
    vm_compute. exact I. }
  pose proof (timeout_resets_progress_only submitting 0%nat
                (Fulfilled (HttpOk (Normal ok_body))) Hin) as [Hreg Hfire].
  fold st1 in Hreg, Hfire.
  unfold st2. rewrite (Hfire 1%nat Hreg).
  repeat split; reflexivity.
Defined.

(** A fulfilled [fetch], whatever the status and the body, stops the interval
    of its submission and leaves progress at 100. *)
Lemma fulfilled_stops_interval (st : State) (iv : nat) (r : Response) :
  iv ∈ inflight st ->
  let st' := step st (FetchSettles iv (Fulfilled r)) in
  intervals st' = delete iv (intervals st)
  /\ uploadStatus st' = mkStatus false 100 (error (uploadStatus st)).
Proof.
  intros Hin st'. unfold st'. rewrite (settled_step st iv _ Hin).
  split; reflexivity.
Qed.

(** Every path through [catch] clears the result and raises one destructive
    "Analysis Failed" toast: a rejected [fetch], a failure status (with the
    body's message, or "Analysis failed" when it has none), a body that does
    not parse. *)
Lemma failure_paths_clear_result (st : State) (iv : nat) (s : Settled) :
  iv ∈ inflight st ->
  (forall d, s <> Fulfilled (HttpOk (Normal d))) ->
  let st' := step st (FetchSettles iv s) in
  predictionResult st' = None
  /\ exists msg,
       toasts st' = mkToast "Analysis Failed" (Some msg) destructive
                    :: toasts st.
Proof.
  intros Hin Hs st'. unfold st'. rewrite (settled_step st iv s Hin).
  destruct s as [[msg |] | [[d | [msg |]] | [d | [msg |]]]];
    try (exfalso; now apply (Hs d));
    (split; [reflexivity | eexists; reflexivity]).
Qed.

(** A failure status shows the message of the error body. *)
Lemma failure_status_message (st : State) (iv : nat) (msg : string) :
  iv ∈ inflight st ->
  msg <> "" ->
  let st' :=
    step st (FetchSettles iv
               (Fulfilled (HttpFailure
                  (Normal (APIError.mk (Some "x") (Some msg)))))) in
  predictionResult st' = None
  /\ progress (uploadStatus st') = 100
  /\ description <$> head (toasts st') = Some (Some msg).
Proof.
  intros Hin Hmsg st'. unfold st'. rewrite (settled_step st iv _ Hin).
  destruct msg; [contradiction |]. repeat split; reflexivity.
Qed.

(** C2, as the code has it: when the response is [ok] and its body says
    [success = false], the submission ends not loading with progress 100 and
    its interval cleared, the body is stored as the prediction result (it is
    not cleared), and one toast is raised: "Analysis Complete", the body's
    message, destructive. *)
Theorem application_failure_keeps_body (st : State) (iv : nat)
    (data : PredictionResponse) :
  iv ∈ inflight st ->
  success data = false ->
  let st' := step st (FetchSettles iv (Fulfilled (HttpOk (Normal data)))) in
  predictionResult st' = Some data
  /\ uploadStatus st' = mkStatus false 100 (error (uploadStatus st))
  /\ intervals st' = delete iv (intervals st)
  /\ toasts st' = mkToast "Analysis Complete" (Some (message data)) destructive
                  :: toasts st.
Proof.
  intros Hin Hfail st'. unfold st'. rewrite (settled_step st iv _ Hin).
  rewrite Hfail. repeat split; reflexivity.
Qed.

Lemma application_failure_keeps_body_witness :
  let st' :=
    step submitting (FetchSettles 0%nat (Fulfilled (HttpOk (Normal declined))))
  in
  predictionResult st' = Some declined
  /\ progress (uploadStatus st') = 100
  /\ lastToastVariant st' = Some destructive.
Proof.
  intros st'.
  assert (Hin : 0%nat ∈ inflight submitting).
  { apply (bool_decide_unpack (0%nat ∈ inflight submitting)).
    vm_compute. exact I. }
  destruct (application_failure_keeps_body submitting 0%nat declined Hin
              eq_refl) as (Hres & Hst & _ & Hto).
  fold st' in Hres, Hst, Hto.
  split; [exact Hres |]. split; [now rewrite Hst |].
  unfold lastToastVariant. now rewrite Hto.
Defined.

(** C2 as stated fails: an [ok] response whose body has [success = false]
    leaves that body as the prediction result. *)
Lemma application_failure_result_not_cleared :
  success declined = false
  /\ predictionResult
       (step submitting
          (FetchSettles 0%nat (Fulfilled (HttpOk (Normal declined)))))
     <> None.
Proof. split; [reflexivity |]. vm_compute. discriminate. Qed.

(** C3 at a rejected [fetch]: the [catch] block runs without
    [clearInterval] and without forcing progress to 100, so after the
    submission has ended (not loading, failure toast raised) its interval is
    still registered, progress is still 0, and the next tick moves it to 5. *)
Theorem rejected_fetch_leaves_interval_running :
  let st1 :=
    step submitting
      (FetchSettles 0%nat (Rejected (ErrorObject "Failed to fetch"))) in
  isLoading (uploadStatus st1) = false
  /\ toasts st1 = [mkToast "Analysis Failed" (Some "Failed to fetch")
                     destructive]
  /\ intervals st1 !! 0%nat = Some 0
  /\ progress (uploadStatus st1) = 0
  /\ progress (uploadStatus (step st1 (IntervalFires 0%nat))) = 5.
Proof. vm_compute. repeat split; reflexivity. Qed.

(** ** The progress interval *)

(** A tick writes the progress its callback closed over plus 5, capped at 90,
    whatever the current progress is; the interval itself stays as it was. *)
Lemma tick_uses_captured_progress (st : State) (iv : nat) (captured : Z) :
  intervals st !! iv = Some captured ->
  let st' := step st (IntervalFires iv) in
  progress (uploadStatus st') = Z.min (captured + 5) 90
  /\ intervals st' = intervals st.
Proof.
  intros Hiv st'. unfold st'. rewrite (live_tick_step st iv captured Hiv).
  split; reflexivity.
Qed.

(** The interval of a submission closes over the progress shown when the
    submit button was clicked. *)
Lemma submit_captures_progress (st : State) :
  submitDisabled st = false ->
  intervals (step st ClickSubmit) !! nextTimer st =
  Some (progress (uploadStatus st)).
Proof.
  intros Hen. rewrite (enabled_submit_step st Hen). cbn.
  apply lookup_insert_eq.
Qed.

(** Ticks alone never take progress above 90. *)
Lemma ticks_stay_below_ceiling (ivs : list nat) (st : State) :
  progress (uploadStatus st) <= 90 ->
  progress (uploadStatus (run (map IntervalFires ivs) st)) <= 90.
Proof.
  revert st. induction ivs as [| iv ivs IH]; intros st Hle; [exact Hle |].
  cbn [map run fold_left]. apply IH.
  destruct (intervals st !! iv) as [c |] eqn:Hiv.
  - rewrite (live_tick_step st iv c Hiv). cbn. lia.
  - now rewrite (dead_tick_step st iv Hiv).
Qed.

(** C6 after a submit from a fresh page: the first tick takes progress from
    0 to 5, and the second and third ticks leave it at 5 instead of adding 5
    each, because the callback keeps adding 5 to the progress of the render
    in which the submit was clicked. *)
Theorem later_ticks_do_not_advance :
  progress (uploadStatus submitting) = 0
  /\ progress (uploadStatus (run [IntervalFires 0%nat] submitting)) = 5
  /\ progress (uploadStatus
       (run [IntervalFires 0%nat; IntervalFires 0%nat] submitting)) = 5
  /\ progress (uploadStatus
       (run [IntervalFires 0%nat; IntervalFires 0%nat; IntervalFires 0%nat]
          submitting)) = 5.
Proof. vm_compute. repeat split; reflexivity. Qed.

(** ** Framing of a result *)

Lemma alertVariant_default_iff (r : PredictionResponse) :
  alertVariant r = default <->
  exists pre post, prediction r = pre ++ "No tumor" ++ post.
Proof.
  rewrite <- includes_substring. unfold alertVariant.
  destruct (includes (prediction r) "No tumor");
    split; intros H; try reflexivity; discriminate H.
Qed.

(** C4, as the code has it: the result panel (variant, colours, title) is
    benign exactly when the label contains "No tumor" and adverse for every
    other label, whatever [success] says; the variant of the "Analysis
    Complete" toast is decided by [success] alone, whatever the label. *)
Theorem framing_by_label_toast_by_success (r : PredictionResponse) :
  (alertVariant r = default <->
   exists pre post, prediction r = pre ++ "No tumor" ++ post)
  /\ (alertVariant r = destructive <->
      ~ exists pre post, prediction r = pre ++ "No tumor" ++ post)
  /\ (alertTitle r = "No Tumor Detected" <-> alertVariant r = default)
  /\ (alertTitle r = "Tumor Detected" <-> alertVariant r = destructive)
  /\ (forall b,
        alertVariant
          (mkPrediction b (prediction r) (confidence_class r) (message r)) =
        alertVariant r)
  /\ (forall st iv, iv ∈ inflight st ->
        lastToastVariant
          (step st (FetchSettles iv (Fulfilled (HttpOk (Normal r))))) =
        Some (if success r then default else destructive)).
Proof.
  split; [apply alertVariant_default_iff |].
  split.
  { rewrite <- alertVariant_default_iff.
    destruct (alertVariant r); split; intros H; try reflexivity;
      try discriminate H; try (intros H'; discriminate H').
    now contradiction H. }
  unfold alertTitle, alertVariant.
  split; [| split].
  - destruct (includes (prediction r) "No tumor");
      split; intros H; try reflexivity; discriminate H.
  - destruct (includes (prediction r) "No tumor");
      split; intros H; try reflexivity; discriminate H.
  - split; [reflexivity |].
    intros st iv Hin. rewrite (settled_step st iv _ Hin). reflexivity.
Qed.

Lemma framing_by_label_toast_by_success_witness :
  alertVariant (mkPrediction false "No tumor detected" 1 "ok") = default
  /\ lastToastVariant
       (step submitting
          (FetchSettles 0%nat
             (Fulfilled
                (HttpOk (Normal (mkPrediction false "No tumor detected" 1
                                   "ok")))))) = Some destructive.
Proof.
  pose proof (framing_by_label_toast_by_success
                (mkPrediction false "No tumor detected" 1 "ok"))
    as (Hlabel & _ & _ & _ & _ & Htoast).
  split.
  - apply Hlabel. exists "", " detected". reflexivity.
  - apply (Htoast submitting 0%nat).
    apply (bool_decide_unpack (0%nat ∈ inflight submitting)).
    vm_compute. exact I.
Defined.

(** C4 as stated fails for the toast: a label without "No tumor" arriving
    with [success = true] is announced with the default variant, while the
    panel for the same result is destructive. *)
Lemma toast_variant_ignores_label :
  includes (prediction glioma) "No tumor" = false
  /\ alertVariant glioma = destructive
  /\ lastToastVariant
       (step submitting
          (FetchSettles 0%nat (Fulfilled (HttpOk (Normal glioma))))) =
     Some default
  /\ lastToastVariant
       (step submitting
          (FetchSettles 0%nat (Fulfilled (HttpOk (Normal glioma))))) <>
     Some (alertVariant glioma).
Proof. vm_compute. repeat split; try reflexivity. discriminate. Qed.

(** The confidence label is "High" for class 1 and "Low" for any other
    number. *)
Lemma confidenceLabel_high_iff (r : PredictionResponse) :
  confidenceLabel r = "High" <-> confidence_class r = 1.
Proof.
  unfold confidenceLabel.
  destruct (Z.eqb_spec (confidence_class r) 1) as [Heq | Hne].
  - split; [intros _; exact Heq | reflexivity].
  - split; [discriminate | intros Heq; contradiction].
Qed.

(** ** The preview handle *)

(** Submitting, ticking, settling and timing out do not touch the preview. *)
Lemma step_preview_frame (st : State) (ev : Event) :
  (forall file, ev <> SelectFile file) ->
  ev <> ClickReset ->
  let st' := step st ev in
  preview st' = preview st
  /\ objectURLs st' = objectURLs st
  /\ nextURL st' = nextURL st.
Proof.
  intros Hsel Hreset st'. unfold st'. clear st'.
  destruct ev as [file | | | iv | iv s | t];
    [now contradiction (Hsel file) | now contradiction Hreset | | | |].
  - destruct (submitDisabled st) eqn:Hdis.
    + now rewrite (disabled_submit_step st Hdis).
    + now rewrite (enabled_submit_step st Hdis).
  - destruct (intervals st !! iv) as [c |] eqn:Hiv.
    + now rewrite (live_tick_step st iv c Hiv).
    + now rewrite (dead_tick_step st iv Hiv).
  - destruct (decide (iv ∈ inflight st)) as [Hin | Hout].
    + now rewrite (settled_step st iv s Hin).
    + now rewrite (stale_settle_step st iv s Hout).
  - destruct (decide (t ∈ timeouts st)) as [Hin | Hout].
    + now rewrite (timeout_step st t Hin).
    + now rewrite (stale_timeout_step st t Hout).
Qed.

Lemma previewInv_initial : previewInv initialState.
Proof. split; [reflexivity | discriminate]. Qed.

Lemma previewInv_frame (st st' : State) :
  preview st' = preview st ->
  objectURLs st' = objectURLs st ->
  nextURL st' = nextURL st ->
  previewInv st -> previewInv st'.
Proof.
  intros Hpre Hobj Hnext [Hurls Hfresh].
  split; [unfold previewURLs | intros u]; rewrite ?Hpre, ?Hobj, ?Hnext;
    [exact Hurls | apply Hfresh].
Qed.

Lemma previewInv_step (st : State) (ev : Event) :
  previewInv st -> previewInv (step st ev).
Proof.
  intros Hinv.
  destruct ev as [file | | | iv | iv s | t].
  - destruct Hinv as [Hurls Hfresh].
    destruct (ValidationResult.isValid (validateFile file)) eqn:Hok.
    + destruct file as [f |]; [| discriminate Hok].
      rewrite (accepted_selection_step st f Hok Hfresh).
      split; cbn.
      * rewrite Hurls, difference_diag_L. apply union_empty_r_L.
      * intros u [= <-]. lia.
    + rewrite (rejected_selection_step st file Hok).
      split; [exact Hurls | exact Hfresh].
  - destruct Hinv as [Hurls Hfresh]. rewrite reset_state. split; cbn.
    + rewrite Hurls. apply difference_diag_L.
    + discriminate.
  - destruct (step_preview_frame st ClickSubmit) as (Hpre & Hobj & Hnext);
      [discriminate | discriminate |].
    now apply (previewInv_frame st).
  - destruct (step_preview_frame st (IntervalFires iv))
      as (Hpre & Hobj & Hnext); [discriminate | discriminate |].
    now apply (previewInv_frame st).
  - destruct (step_preview_frame st (FetchSettles iv s))
      as (Hpre & Hobj & Hnext); [discriminate | discriminate |].
    now apply (previewInv_frame st).
  - destruct (step_preview_frame st (TimeoutFires t))
      as (Hpre & Hobj & Hnext); [discriminate | discriminate |].
    now apply (previewInv_frame st).
Qed.

Lemma previewInv_run (evs : list Event) (st : State) :
  previewInv st -> previewInv (run evs st).
Proof.
  revert st. induction evs as [| ev evs IH]; intros st Hinv; [exact Hinv |].
  cbn [run fold_left]. apply IH, previewInv_step, Hinv.
Qed.

Lemma previewURLs_size (st : State) : (base.size (previewURLs st) <= 1)%nat.
Proof.
  unfold previewURLs. destruct (preview st).
  - now rewrite size_singleton.
  - rewrite size_empty. lia.
Qed.

(** C7: after any sequence of events from the initial page (selections,
    resets, and everything else the page reacts to) the blob URLs alive are
    the current preview's and nothing more, so at most one. An accepted
    selection in such a state ends with the fresh URL as the only one alive,
    the previous one revoked; a reset ends with none alive. Resetting is
    idempotent, never throws, and with no preview to revoke it leaves the
    URL store as it found it. *)
Theorem at_most_one_live_preview (evs : list Event) :
  let st := run evs initialState in
  objectURLs st = previewURLs st
  /\ (base.size (objectURLs st) <= 1)%nat
  /\ (forall f, ValidationResult.isValid (validateFile (Some f)) = true ->
        let st' := step st (SelectFile (Some f)) in
        preview st' = Some (nextURL st)
        /\ objectURLs st' = {[nextURL st]}
        /\ previewURLs st ## objectURLs st')
  /\ objectURLs (step st ClickReset) = ∅
  /\ step (step st ClickReset) ClickReset = step st ClickReset
  /\ fst (resetForm st) = Normal tt
  /\ (preview st = None -> objectURLs (step st ClickReset) = objectURLs st).
Proof.
  intros st.
  destruct (previewInv_run evs initialState previewInv_initial)
    as [Hurls Hfresh]. fold st in Hurls, Hfresh.
  split; [exact Hurls |].
  split; [rewrite Hurls; apply previewURLs_size |].
  split.
  { intros f Hok st'. unfold st'.
    rewrite (accepted_selection_step st f Hok Hfresh). cbn.
    split; [reflexivity |].
    rewrite Hurls, difference_diag_L, union_empty_r_L.
    split; [reflexivity |].
    unfold previewURLs. destruct (preview st) as [u |] eqn:Hu.
    - apply disjoint_singleton_l. rewrite elem_of_singleton.
      specialize (Hfresh u eq_refl). lia.
    - apply disjoint_empty_l. }
  split; [rewrite reset_state; cbn; rewrite Hurls; apply difference_diag_L |].
  split.
  { rewrite !reset_state. cbn. unfold previewURLs at 1. cbn.
    now rewrite difference_empty_L. }
  split.
  { destruct st as [sf [u |] pr us urls nu ivs tos nt inf ts];
      run_handlers; reflexivity. }
  intros Hnone. rewrite reset_state. cbn. unfold previewURLs.
  rewrite Hnone. apply difference_empty_L.
Qed.

Lemma at_most_one_live_preview_witness :
  let st := run [SelectFile (Some scan); ClickSubmit] initialState in
  let st' := step st (SelectFile (Some (mkFile "next.jpg" "image/jpeg" 512))) in
  objectURLs st = {[0%nat]}
  /\ preview st' = Some 1%nat
  /\ objectURLs st' = {[1%nat]}
  /\ objectURLs (step initialState ClickReset) = objectURLs initialState.
Proof.
  intros st st'.
  destruct (at_most_one_live_preview [SelectFile (Some scan); ClickSubmit])
    as (Hurls & _ & Hsel & _).
  destruct (Hsel (mkFile "next.jpg" "image/jpeg" 512) eq_refl)
    as (Hpre & Hobj & _).
  destruct (at_most_one_live_preview []) as (_ & _ & _ & _ & _ & _ & Hnone).
  split; [exact Hurls |].
  split; [exact Hpre |].
  split; [exact Hobj |].
  apply Hnone. reflexivity.
Defined.

(** Leaving the page in a reachable state revokes the last preview URL. *)
Lemma unmount_releases_preview (evs : list Event) :
  objectURLs (unmount (run evs initialState)) = ∅.
Proof.
  destruct (previewInv_run evs initialState previewInv_initial) as [Hurls _].
  revert Hurls. generalize (run evs initialState).
  intros [sf [u |] pr us urls nu ivs tos nt inf ts]; unfold unmount;
    run_handlers; intros ->.
  - apply difference_diag_L.
  - reflexivity.
Qed.

(** Both entry points hand the first file to [handleFileSelection]; an input
    change without a file does nothing, a drop without one is rejected. *)
Lemma entry_points (st : State) (f : File) (rest : list File) :
  handleDrop (f :: rest) st = handleFileSelection (Some f) st
  /\ handleFileInputChange (Some (f :: rest)) st =
     handleFileSelection (Some f) st
  /\ exec (handleFileInputChange None) st = st
  /\ exec (handleFileInputChange (Some [])) st = st
  /\ toasts (exec (handleDrop []) st) =
     mkToast "Invalid File" (Some "Please select a file") destructive
     :: toasts st.
Proof. repeat split; reflexivity. Qed.

(** * Further properties *)

(** ** Invariants along every run *)

(** Splits [step st ev] into the paths of the handlers and rewrites each with
    its equation; [Hfresh] is the freshness half of [previewInv]. *)
Ltac step_cases st ev Hfresh :=
  let file := fresh "file" in
  let f := fresh "f" in
  let iv := fresh "iv" in
  let s := fresh "s" in
  let t := fresh "t" in
  let c := fresh "c" in
  let Hok := fresh "Hok" in
  let Hdis := fresh "Hdis" in
  let Hiv := fresh "Hiv" in
  let Hin := fresh "Hin" in
  destruct ev as [file | | | iv | iv s | t];
  [ destruct (ValidationResult.isValid (validateFile file)) eqn:Hok;
    [ destruct file as [f |];
      [ rewrite (accepted_selection_step st f Hok Hfresh)
      | discriminate Hok ]
    | rewrite (rejected_selection_step st file Hok) ]
  | rewrite (reset_state st)
  | destruct (submitDisabled st) eqn:Hdis;
    [ rewrite (disabled_submit_step st Hdis)
    | rewrite (enabled_submit_step st Hdis) ]
  | destruct (intervals st !! iv) as [c |] eqn:Hiv;
    [ rewrite (live_tick_step st iv c Hiv)
    | rewrite (dead_tick_step st iv Hiv) ]
  | destruct (decide (iv ∈ inflight st)) as [Hin | Hin];
    [ rewrite (settled_step st iv s Hin)
    | rewrite (stale_settle_step st iv s Hin) ]
  | destruct (decide (t ∈ timeouts st)) as [Hin | Hin];
    [ rewrite (timeout_step st t Hin)
    | rewrite (stale_timeout_step st t Hin) ] ].

Lemma progressInv_step (st : State) (ev : Event) :
  previewInv st -> progressInv st -> progressInv (step st ev).
Proof.
  intros [_ Hfresh] [Hp Hc].
  step_cases st ev Hfresh; try (split; assumption); split; cbn;
    try assumption; try lia.
  - intros iv c. rewrite lookup_insert.
    destruct (decide (nextTimer st = iv)); [intros [= <-]; exact Hp |].
    apply Hc.
  - specialize (Hc _ _ Hiv). lia.
  - destruct s; [exact Hp | lia].
  - intros iv' c. destruct s; [apply Hc |].
    rewrite lookup_delete_Some. intros [_ H]. exact (Hc _ _ H).
Qed.

Lemma timersInv_step (st : State) (ev : Event) :
  previewInv st -> timersInv st -> timersInv (step st ev).
Proof.
  intros [_ Hfresh] (Hiv & Ht & Hsub).
  step_cases st ev Hfresh; try (repeat split; assumption);
    (split; [| split]); cbn; try assumption.
  - intros iv. rewrite dom_insert_L, elem_of_union, elem_of_singleton.
    intros [-> | H]; [lia | specialize (Hiv _ H); lia].
  - intros t H. specialize (Ht _ H). lia.
  - rewrite dom_insert_L. apply union_mono_l, Hsub.
  - intros iv' H. assert (iv' ∈ dom (intervals st)) as H'.
    { destruct s; [exact H |]. rewrite dom_delete_L in H.
      now apply elem_of_difference in H. }
    specialize (Hiv _ H'). lia.
  - intros t. rewrite elem_of_union, elem_of_singleton.
    intros [-> | H]; [lia | specialize (Ht _ H); lia].
  - destruct s.
    + intros x Hx. apply elem_of_difference in Hx. apply Hsub, Hx.
    + rewrite dom_delete_L. intros x Hx.
      apply elem_of_difference in Hx. apply elem_of_difference.
      split; [apply Hsub |]; apply Hx.
  - intros t' H. apply elem_of_difference in H. apply Ht, H.
Qed.

Lemma selectionInv_step (st : State) (ev : Event) :
  previewInv st -> selectionInv st -> selectionInv (step st ev).
Proof.
  intros [_ Hfresh] Hsel. unfold selectionInv in *.
  step_cases st ev Hfresh; cbn; try assumption.
  - split; intros _; eexists; reflexivity.
  - split; intros [x Hx]; discriminate Hx.
Qed.

(** The invariants hold in every state the page can reach. *)
Lemma reachable_inv (evs : list Event) :
  let st := run evs initialState in
  previewInv st /\ progressInv st /\ timersInv st /\ selectionInv st.
Proof.
  cut (forall st,
          previewInv st /\ progressInv st /\ timersInv st /\ selectionInv st ->
          previewInv (run evs st) /\ progressInv (run evs st)
          /\ timersInv (run evs st) /\ selectionInv (run evs st)).
  { intros H. apply H. split; [apply previewInv_initial |].
    split; [split; [cbn; lia | intros iv c H'; discriminate H'] |].
    split.
    - split; [| split]; cbn.
      + intros iv. rewrite dom_empty_L. intros H'. now apply elem_of_empty in H'.
      + intros t H'. now apply elem_of_empty in H'.
      + reflexivity.
    - split; intros [x Hx]; discriminate Hx. }
  induction evs as [| ev evs IH]; intros st Hinv; [exact Hinv |].
  cbn [run fold_left]. apply IH.
  destruct Hinv as (Hpre & Hprog & Htim & Hsel).
  split; [now apply previewInv_step |].
  split; [now apply progressInv_step |].
  split; [now apply timersInv_step | now apply selectionInv_step].
Qed.

(** ** Selecting a file, continued *)

(** X1: in any state the page can reach, selecting a file that passes
    validation makes it the selected file, shows a preview, clears the
    prediction result and raises no toast; the upload status, the timers and
    the requests in flight are not touched, so a running submission goes on. *)
Theorem accepted_selection_keeps_submission (evs : list Event) (f : File) :
  ValidationResult.isValid (validateFile (Some f)) = true ->
  let st := run evs initialState in
  let st' := step st (SelectFile (Some f)) in
  selectedFile st' = Some f
  /\ showsPreview st' = true
  /\ predictionResult st' = None
  /\ toasts st' = toasts st
  /\ uploadStatus st' = uploadStatus st
  /\ intervals st' = intervals st
  /\ timeouts st' = timeouts st
  /\ inflight st' = inflight st.
Proof.
  intros Hok st st'.
  destruct (reachable_inv evs) as ([_ Hfresh] & _). fold st in Hfresh.
  unfold st'. rewrite (accepted_selection_step st f Hok Hfresh).
  repeat split; reflexivity.
Qed.

Lemma accepted_selection_keeps_submission_witness :
  let next := mkFile "next.jpg" "image/jpeg" 512 in
  let st' := step submitting (SelectFile (Some next)) in
  selectedFile st' = Some next
  /\ isLoading (uploadStatus st') = true
  /\ inflight st' = inflight submitting.
Proof.
  intros next st'.
  destruct (accepted_selection_keeps_submission
              [SelectFile (Some scan); ClickSubmit] next eq_refl)
    as (Hsel & _ & _ & _ & Hst & _ & _ & Hin).
  split; [exact Hsel |]. split; [| exact Hin].
  unfold st'. fold submitting in Hst. rewrite Hst. reflexivity.
Defined.

(** X2: a drop looks at its first file only; a drop without files is
    rejected with the "Please select a file" toast and changes nothing else,
    while an input change without a file does nothing at all, toast
    included. *)
Theorem drop_and_input_entry_points (st : State) :
  exec (handleDrop []) st =
  mkState (selectedFile st) (preview st) (predictionResult st)
    (uploadStatus st) (objectURLs st) (nextURL st) (intervals st)
    (timeouts st) (nextTimer st) (inflight st)
    (mkToast "Invalid File" (Some "Please select a file") destructive
       :: toasts st)
  /\ exec (handleFileInputChange None) st = st
  /\ exec (handleFileInputChange (Some [])) st = st
  /\ (forall f rest,
        exec (handleDrop (f :: rest)) st = exec (handleDrop [f]) st
        /\ exec (handleFileInputChange (Some (f :: rest))) st =
           exec (handleDrop [f]) st).
Proof.
  split; [destruct st; reflexivity |].
  repeat split; reflexivity.
Qed.

(** ** Submitting, continued *)

(** X3: with no file selected the submit button is disabled and a click
    changes nothing; [handleSubmit] itself also returns at once. *)
Theorem submit_without_file_is_noop (st : State) :
  selectedFile st = None ->
  submitDisabled st = true
  /\ step st ClickSubmit = st
  /\ exec handleSubmit st = st.
Proof.
  intros Hnone.
  assert (Hdis : submitDisabled st = true).
  { unfold submitDisabled. rewrite Hnone.
    rewrite bool_decide_eq_false_2; [reflexivity |].
    intros [x Hx]. discriminate Hx. }
  split; [exact Hdis |].
  split; [now apply disabled_submit_step |].
  unfold exec, handleSubmit, ret. now rewrite Hnone.
Qed.

Lemma submit_without_file_is_noop_witness :
  submitDisabled initialState = true
  /\ step initialState ClickSubmit = initialState
  /\ exec handleSubmit initialState = initialState.
Proof. apply (submit_without_file_is_noop initialState). reflexivity. Defined.

(** X4: with a file selected and nothing loading, a submit click turns
    loading on at progress 0, starts one interval that has closed over the
    progress shown before the click, and puts one request in flight. It
    leaves the selected file, the preview, the toasts and the pending
    timeouts alone, and it keeps the previous prediction result on display. *)
Theorem submit_starts_one_request (st : State) (f : File) :
  selectedFile st = Some f ->
  isLoading (uploadStatus st) = false ->
  let st' := step st ClickSubmit in
  uploadStatus st' = mkStatus true 0 None
  /\ intervals st' = <[nextTimer st := progress (uploadStatus st)]> (intervals st)
  /\ inflight st' = {[nextTimer st]} ∪ inflight st
  /\ predictionResult st' = predictionResult st
  /\ selectedFile st' = Some f
  /\ preview st' = preview st
  /\ timeouts st' = timeouts st
  /\ toasts st' = toasts st.
Proof.
  intros Hsel Hidle st'.
  assert (Hen : submitDisabled st = false).
  { unfold submitDisabled. rewrite Hsel, Hidle.
    rewrite bool_decide_eq_true_2; [reflexivity | now eexists]. }
  unfold st'. rewrite (enabled_submit_step st Hen). cbn.
  repeat split; try reflexivity. exact Hsel.
Qed.

Lemma submit_starts_one_request_witness :
  let shown :=
    step submitting (FetchSettles 0%nat (Fulfilled (HttpOk (Normal glioma))))
  in
  let again := step shown ClickSubmit in
  progress (uploadStatus shown) = 100
  /\ uploadStatus again = mkStatus true 0 None
  /\ predictionResult again = Some glioma
  /\ intervals again !! 2%nat = Some 100.
Proof.
  intros shown again.
  destruct (submit_starts_one_request shown scan eq_refl eq_refl)
    as (Hst & Hiv & _ & Hres & _).
  fold again in Hst, Hiv, Hres.
  split; [reflexivity |]. split; [exact Hst |].
  split; [rewrite Hres; reflexivity |].
  rewrite Hiv. reflexivity.
Defined.

(** ** Outcomes of a submission *)

(** X5: when the response has a failure status and its body parses, the
    submission ends not loading with progress 100, its interval cleared and
    the prediction result cleared, and one destructive "Analysis Failed"
    toast shows the body's [message]; when the body has no message, or an
    empty one, the toast shows "Analysis failed". *)
Theorem failure_status_shows_body_message (st : State) (iv : nat)
    (errorData : APIError.t) :
  iv ∈ inflight st ->
  let st' :=
    step st (FetchSettles iv (Fulfilled (HttpFailure (Normal errorData)))) in
  predictionResult st' = None
  /\ uploadStatus st' = mkStatus false 100 (error (uploadStatus st))
  /\ intervals st' = delete iv (intervals st)
  /\ exists shown,
       toasts st' = mkToast "Analysis Failed" (Some shown) destructive
                    :: toasts st
       /\ (forall msg, APIError.message errorData = Some msg -> msg <> "" ->
           shown = msg)
       /\ (APIError.message errorData = None
           \/ APIError.message errorData = Some "" ->
           shown = "Analysis failed").
Proof.
  intros Hin st'. unfold st'. rewrite (settled_step st iv _ Hin). cbn.
  repeat (split; [reflexivity |]).
  eexists. split; [reflexivity |]. split.
  - intros msg -> Hne. destruct msg; [contradiction | reflexivity].
  - intros [-> | ->]; reflexivity.
Qed.

Lemma failure_status_shows_body_message_witness :
  let overloaded := APIError.mk (Some "x") (Some "server overloaded") in
  let st' :=
    step submitting
      (FetchSettles 0%nat (Fulfilled (HttpFailure (Normal overloaded)))) in
  predictionResult st' = None
  /\ progress (uploadStatus st') = 100
  /\ toasts st' = [mkToast "Analysis Failed" (Some "server overloaded")
                     destructive].
Proof.
  intros overloaded st'.
  assert (Hin : 0%nat ∈ inflight submitting).
  { apply (bool_decide_unpack (0%nat ∈ inflight submitting)).
    vm_compute. exact I. }
  destruct (failure_status_shows_body_message submitting 0%nat overloaded Hin)
    as (Hres & Hst & _ & shown & Hto & Hmsg & _).
  fold st' in Hres, Hst, Hto.
  split; [exact Hres |]. split; [now rewrite Hst |].
  rewrite Hto, (Hmsg "server overloaded" eq_refl); [reflexivity |].
  discriminate.
Defined.

(** X6: every settled submission raises exactly one toast. It is titled
    "Analysis Complete" exactly when the response was [ok] and its body
    parsed, and "Analysis Failed" exactly when the prediction result is left
    cleared; every "Analysis Failed" toast is destructive. *)
Theorem one_toast_per_outcome (st : State) (iv : nat) (s : Settled) :
  iv ∈ inflight st ->
  let st' := step st (FetchSettles iv s) in
  exists t,
    toasts st' = t :: toasts st
    /\ (title t = "Analysis Complete" <->
        exists data, s = Fulfilled (HttpOk (Normal data)))
    /\ (title t = "Analysis Failed" <-> predictionResult st' = None)
    /\ (title t = "Analysis Failed" -> variant t = destructive).
Proof.
  intros Hin st'. unfold st'. rewrite (settled_step st iv s Hin). cbn.
  eexists. split; [reflexivity |].
  destruct s as [[msg |] | [[d | [msg |]] | [d | [msg |]]]]; cbn;
    (split; [split; [intros H; try discriminate H; now eexists
                    | intros [data H]; try discriminate H; reflexivity]
            | split; [split; intros H; try discriminate H; reflexivity
                     | intros H; try discriminate H; reflexivity]]).
Qed.

Lemma one_toast_per_outcome_witness :
  let st' := step submitting (FetchSettles 0%nat (Rejected NotAnError)) in
  exists t, toasts st' = [t] /\ variant t = destructive.
Proof.
  intros st'.
  assert (Hin : 0%nat ∈ inflight submitting).
  { apply (bool_decide_unpack (0%nat ∈ inflight submitting)).
    vm_compute. exact I. }
  destruct (one_toast_per_outcome submitting 0%nat (Rejected NotAnError) Hin)
    as (t & Hto & _ & Hfail & Hvar).
  exists t. split; [exact Hto |].
  apply Hvar, Hfail. reflexivity.
Defined.

(** X7: when the response is [ok] and its body says [success = true], the
    body becomes the prediction result and the result panel is shown, the
    progress bar is hidden with progress at 100 and the interval cleared,
    and one default "Analysis Complete" toast shows the body's message. *)
Theorem success_stores_and_announces (st : State) (iv : nat)
    (data : PredictionResponse) :
  iv ∈ inflight st ->
  success data = true ->
  let st' := step st (FetchSettles iv (Fulfilled (HttpOk (Normal data)))) in
  predictionResult st' = Some data
  /\ showsResult st' = true
  /\ showsProgress st' = false
  /\ progress (uploadStatus st') = 100
  /\ intervals st' = delete iv (intervals st)
  /\ toasts st' = mkToast "Analysis Complete" (Some (message data)) default
                  :: toasts st.
Proof.
  intros Hin Hok st'. unfold st'. rewrite (settled_step st iv _ Hin).
  rewrite Hok. repeat split; reflexivity.
Qed.

Lemma success_stores_and_announces_witness :
  let clear := mkPrediction true "No tumor detected" 1 "ok" in
  let st' :=
    step submitting (FetchSettles 0%nat (Fulfilled (HttpOk (Normal clear)))) in
  predictionResult st' = Some clear
  /\ progress (uploadStatus st') = 100
  /\ alertTitle clear = "No Tumor Detected"
  /\ confidenceLabel clear = "High".
Proof.
  intros clear st'.
  assert (Hin : 0%nat ∈ inflight submitting).
  { apply (bool_decide_unpack (0%nat ∈ inflight submitting)).
    vm_compute. exact I. }
  destruct (success_stores_and_announces submitting 0%nat clear Hin eq_refl)
    as (Hres & _ & _ & Hprog & _).
  split; [exact Hres |]. split; [exact Hprog |]. split; reflexivity.
Defined.

(** X8: when [fetch] rejects, in any state, the submission ends not loading
    with the prediction result cleared and one destructive "Analysis Failed"
    toast (the error's message, or the generic text when what was thrown is
    not an [Error]); the interval of the submission is left registered and
    progress is left where it was. *)
Theorem rejected_fetch_outcome (st : State) (iv : nat) (e : Thrown) :
  iv ∈ inflight st ->
  let st' := step st (FetchSettles iv (Rejected e)) in
  isLoading (uploadStatus st') = false
  /\ predictionResult st' = None
  /\ intervals st' = intervals st
  /\ progress (uploadStatus st') = progress (uploadStatus st)
  /\ toasts st' =
     mkToast "Analysis Failed"
       (Some match e with
             | ErrorObject msg => msg
             | NotAnError =>
                 "Unable to process the brain scan. Please try again."
             end)
       destructive :: toasts st.
Proof.
  intros Hin st'. unfold st'. rewrite (settled_step st iv _ Hin).
  destruct e; repeat split; reflexivity.
Qed.

Lemma rejected_fetch_outcome_witness :
  let st' :=
    step submitting (FetchSettles 0%nat (Rejected (ErrorObject "offline"))) in
  is_Some (intervals st' !! 0%nat)
  /\ progress (uploadStatus st') = 0
  /\ toasts st' = [mkToast "Analysis Failed" (Some "offline") destructive].
Proof.
  intros st'.
  assert (Hin : 0%nat ∈ inflight submitting).
  { apply (bool_decide_unpack (0%nat ∈ inflight submitting)).
    vm_compute. exact I. }
  destruct (rejected_fetch_outcome submitting 0%nat (ErrorObject "offline")
              Hin) as (_ & _ & Hiv & Hprog & Hto).
  fold st' in Hiv, Hprog, Hto.
  split; [rewrite Hiv; now eexists |].
  split; [rewrite Hprog; reflexivity | exact Hto].
Defined.

(** X9: whatever the outcome of a submission, once it has settled the submit
    button is enabled again as long as a file is selected, so the user can
    submit again; the selected file and the preview are kept. *)
Theorem settled_submission_can_be_retried (st : State) (iv : nat)
    (s : Settled) (f : File) :
  iv ∈ inflight st ->
  selectedFile st = Some f ->
  let st' := step st (FetchSettles iv s) in
  submitDisabled st' = false
  /\ selectedFile st' = Some f
  /\ preview st' = preview st.
Proof.
  intros Hin Hsel st'. unfold st'. rewrite (settled_step st iv s Hin).
  unfold submitDisabled. cbn. rewrite Hsel.
  rewrite bool_decide_eq_true_2 by (now eexists).
  repeat split; reflexivity.
Qed.

Lemma settled_submission_can_be_retried_witness :
  let st' :=
    step submitting (FetchSettles 0%nat (Rejected (ErrorObject "offline"))) in
  submitDisabled submitting = true
  /\ submitDisabled st' = false
  /\ selectedFile st' = Some scan.
Proof.
  intros st'.
  assert (Hin : 0%nat ∈ inflight submitting).
  { apply (bool_decide_unpack (0%nat ∈ inflight submitting)).
    vm_compute. exact I. }
  destruct (settled_submission_can_be_retried submitting 0%nat
              (Rejected (ErrorObject "offline")) scan Hin eq_refl)
    as (Hdis & Hsel & _).
  split; [reflexivity |]. split; [exact Hdis | exact Hsel].
Defined.

(** ** Reset during a submission *)

(** X10: a reset does not cancel a submission. The request stays in flight
    and its interval stays registered, and when the response arrives its
    body is stored as the prediction result of the page that was reset, with
    no file selected and no preview. *)
Theorem reset_does_not_cancel (st : State) (iv : nat)
    (data : PredictionResponse) :
  iv ∈ inflight st ->
  let st1 := step st ClickReset in
  let st2 := step st1 (FetchSettles iv (Fulfilled (HttpOk (Normal data)))) in
  inflight st1 = inflight st
  /\ intervals st1 = intervals st
  /\ predictionResult st1 = None
  /\ predictionResult st2 = Some data
  /\ selectedFile st2 = None
  /\ preview st2 = None.
Proof.
  intros Hin st1 st2.
  assert (Hin1 : iv ∈ inflight st1) by (unfold st1; now rewrite reset_state).
  unfold st2. rewrite (settled_step st1 iv _ Hin1).
  unfold st1. rewrite reset_state. repeat split; reflexivity.
Qed.

Lemma reset_does_not_cancel_witness :
  let st2 :=
    run [ClickReset; FetchSettles 0%nat (Fulfilled (HttpOk (Normal glioma)))]
      submitting in
  predictionResult st2 = Some glioma /\ selectedFile st2 = None.
Proof.
  intros st2.
  assert (Hin : 0%nat ∈ inflight submitting).
  { apply (bool_decide_unpack (0%nat ∈ inflight submitting)).
    vm_compute. exact I. }
  destruct (reset_does_not_cancel submitting 0%nat glioma Hin)
    as (_ & _ & _ & Hres & Hsel & _).
  split; [exact Hres | exact Hsel].
Defined.

(** X11: a reset re-enables the submit button while a request is still in
    flight. In any state the page can reach, resetting, selecting a valid
    file and clicking submit starts a second request next to the first:
    both are in flight, each with its own interval. *)
Theorem reset_allows_second_request (evs : list Event) (f : File) :
  ValidationResult.isValid (validateFile (Some f)) = true ->
  let st := run evs initialState in
  let st' := run [ClickReset; SelectFile (Some f); ClickSubmit] st in
  (nextTimer st ∉ inflight st)
  /\ inflight st' = {[nextTimer st]} ∪ inflight st
  /\ dom (intervals st') = {[nextTimer st]} ∪ dom (intervals st)
  /\ isLoading (uploadStatus st') = true.
Proof.
  intros Hok st st'.
  destruct (reachable_inv evs) as (_ & _ & (Hiv & _ & Hsub) & _).
  fold st in Hiv, Hsub.
  split.
  { intros Hin. specialize (Hiv _ (Hsub _ Hin)). lia. }
  unfold st'. cbn [run fold_left]. rewrite (reset_state st).
  rewrite accepted_selection_step; [| exact Hok | discriminate].
  rewrite enabled_submit_step by reflexivity. cbn.
  rewrite dom_insert_L. repeat split; reflexivity.
Qed.

Lemma reset_allows_second_request_witness :
  let st' :=
    run [ClickReset; SelectFile (Some scan); ClickSubmit] submitting in
  inflight st' = {[1%nat]} ∪ inflight submitting
  /\ 1%nat ∉ inflight submitting.
Proof.
  intros st'.
  destruct (reset_allows_second_request
              [SelectFile (Some scan); ClickSubmit] scan eq_refl)
    as (Hnew & Hin & _).
  split; [exact Hin | exact Hnew].
Defined.

(** ** Along every run *)

(** X12: in every state the page can reach, progress is between 0 and 100,
    and so is the progress every registered interval has closed over. *)
Theorem progress_is_a_percentage (evs : list Event) :
  let st := run evs initialState in
  0 <= progress (uploadStatus st) <= 100
  /\ forall iv c, intervals st !! iv = Some c -> 0 <= Z.min (c + 5) 90 <= 90.
Proof.
  intros st. destruct (reachable_inv evs) as (_ & [Hp Hc] & _).
  fold st in Hp, Hc. split; [exact Hp |].
  intros iv c H. specialize (Hc _ _ H). lia.
Qed.

(** X13: in every state the page can reach, a file is selected exactly when
    a preview (with its reset button) is shown; in particular the submit
    button is never enabled without a preview on screen. *)
Theorem selection_has_preview (evs : list Event) :
  let st := run evs initialState in
  (is_Some (selectedFile st) <-> is_Some (preview st))
  /\ (submitDisabled st = false -> showsPreview st = true).
Proof.
  intros st. destruct (reachable_inv evs) as (_ & _ & _ & Hsel).
  fold st in Hsel. split; [exact Hsel |].
  unfold submitDisabled, showsPreview. intros Hen.
  apply orb_false_elim in Hen as [Hfile _].
  apply negb_false_iff, bool_decide_eq_true in Hfile.
  apply bool_decide_eq_true, Hsel, Hfile.
Qed.

Lemma selection_has_preview_witness :
  submitDisabled (run [SelectFile (Some scan)] initialState) = false
  /\ showsPreview (run [SelectFile (Some scan)] initialState) = true.
Proof.
  split; [reflexivity |].
  apply (proj2 (selection_has_preview [SelectFile (Some scan)])).
  reflexivity.
Defined.

(** X14: in every state the page can reach, every request in flight still
    has its interval registered: ticks keep coming until the request
    settles. *)
Theorem inflight_request_has_interval (evs : list Event) (iv : nat) :
  let st := run evs initialState in
  iv ∈ inflight st -> is_Some (intervals st !! iv).
Proof.
  intros st Hin. destruct (reachable_inv evs) as (_ & _ & (_ & _ & Hsub) & _).
  apply elem_of_dom, Hsub, Hin.
Qed.

Lemma inflight_request_has_interval_witness :
  is_Some (intervals submitting !! 0%nat).
Proof.
  apply (inflight_request_has_interval [SelectFile (Some scan); ClickSubmit]
           0%nat).
  apply (bool_decide_unpack (0%nat ∈ inflight submitting)).
  vm_compute. exact I.
Defined.

(** A run without a rejected [fetch] leaves no interval behind: the
    registered intervals are those of the requests in flight. *)
Lemma no_rejection_no_leak (evs : list Event) (st : State) :
  existsb isRejection evs = false ->
  previewInv st ->
  dom (intervals st) = inflight st ->
  dom (intervals (run evs st)) = inflight (run evs st).
Proof.
  revert st. induction evs as [| ev evs IH]; intros st Hrej Hpre Heq;
    [exact Heq |].
  cbn [existsb] in Hrej. apply orb_false_elim in Hrej as [Hev Hrej].
  cbn [run fold_left].
  apply IH; [exact Hrej | now apply previewInv_step |].
  destruct Hpre as [_ Hfresh].
  step_cases st ev Hfresh; cbn; try assumption.
  - rewrite dom_insert_L, Heq. reflexivity.
  - destruct s; [discriminate Hev |].
    rewrite dom_delete_L, Heq. reflexivity.
Qed.

(** X15: as long as no [fetch] has rejected, the registered intervals are
    exactly those of the requests in flight, so no tick can fire once every
    request has settled. *)
Theorem intervals_leak_only_on_rejection (evs : list Event) :
  existsb isRejection evs = false ->
  let st := run evs initialState in
  dom (intervals st) = inflight st
  /\ (inflight st = ∅ -> forall iv, step st (IntervalFires iv) = st).
Proof.
  intros Hrej st.
  assert (Heq : dom (intervals st) = inflight st).
  { apply no_rejection_no_leak;
      [exact Hrej | apply previewInv_initial | reflexivity]. }
  split; [exact Heq |].
  intros Hnone iv. apply dead_tick_step.
  apply not_elem_of_dom. rewrite Heq, Hnone. apply not_elem_of_empty.
Qed.

Lemma intervals_leak_only_on_rejection_witness :
  let st :=
    run [SelectFile (Some scan); ClickSubmit;
         FetchSettles 0%nat (Fulfilled (HttpOk (Normal glioma)))]
      initialState in
  dom (intervals st) = inflight st
  /\ step st (IntervalFires 0%nat) = st.
Proof.
  intros st.
  destruct (intervals_leak_only_on_rejection
              [SelectFile (Some scan); ClickSubmit;
               FetchSettles 0%nat (Fulfilled (HttpOk (Normal glioma)))]
              eq_refl) as [Heq Hdead].
  split; [exact Heq |].
  apply Hdead.
  apply set_eq. intros x. split; [| intros H; now apply elem_of_empty in H].
  intros H. apply (bool_decide_pack (x ∈ inflight st)) in H.
  vm_compute in H. exact (False_ind _ H).
Defined.

Lemma run_cons (ev : Event) (evs : list Event) (st : State) :
  run (ev :: evs) st = run evs (step st ev).
Proof. reflexivity. Qed.

(** Ticks of one interval, one after another, all write the same progress. *)
Lemma repeated_ticks (n : nat) (st : State) (iv : nat) (c : Z) :
  intervals st !! iv = Some c ->
  progress (uploadStatus (run (repeat (IntervalFires iv) (S n)) st)) =
  Z.min (c + 5) 90
  /\ isLoading (uploadStatus (run (repeat (IntervalFires iv) (S n)) st)) =
     isLoading (uploadStatus st).
Proof.
  revert st. induction n as [| n IH]; intros st Hiv.
  - cbn [repeat]. rewrite run_cons. cbn [run fold_left].
    rewrite (live_tick_step st iv c Hiv). split; reflexivity.
  - change (repeat (IntervalFires iv) (S (S n)))
      with (IntervalFires iv :: repeat (IntervalFires iv) (S n)).
    rewrite run_cons.
    assert (Hiv' : intervals (step st (IntervalFires iv)) !! iv = Some c)
      by (rewrite (live_tick_step st iv c Hiv); exact Hiv).
    destruct (IH _ Hiv') as (Hp & Hl). rewrite Hp, Hl.
    rewrite (live_tick_step st iv c Hiv). split; reflexivity.
Qed.

(** X16: after a submit click at progress [p], any number of ticks of the
    new interval, one or many, leaves progress at [min (p + 5) 90]: the
    progress bar moves on the first tick and stands still afterwards. *)
Theorem ticks_after_submit_stand_still (st : State) (f : File) (n : nat) :
  selectedFile st = Some f ->
  isLoading (uploadStatus st) = false ->
  let st' :=
    run (ClickSubmit :: repeat (IntervalFires (nextTimer st)) (S n)) st in
  progress (uploadStatus st') = Z.min (progress (uploadStatus st) + 5) 90
  /\ isLoading (uploadStatus st') = true.
Proof.
  intros Hsel Hidle st'.
  assert (Hen : submitDisabled st = false).
  { unfold submitDisabled. rewrite Hsel, Hidle.
    rewrite bool_decide_eq_true_2; [reflexivity | now eexists]. }
  unfold st'. rewrite run_cons.
  destruct (repeated_ticks n (step st ClickSubmit) (nextTimer st)
              (progress (uploadStatus st))) as (Hp & Hl).
  { rewrite (enabled_submit_step st Hen). cbn. apply lookup_insert_eq. }
  rewrite Hp, Hl.
  rewrite (enabled_submit_step st Hen). split; reflexivity.
Qed.

Lemma ticks_after_submit_stand_still_witness :
  let ready := run [SelectFile (Some scan)] initialState in
  progress (uploadStatus
              (run (ClickSubmit :: repeat (IntervalFires 0%nat) 10) ready))
  = 5.
Proof.
  intros ready.
  exact (proj1 (ticks_after_submit_stand_still ready scan 9 eq_refl eq_refl)).
Defined.

(** X17: leaving the page, in any state it can reach, revokes the preview
    URL, so no blob URL stays alive; it clears no timer and cancels no
    request. *)
Theorem unmount_revokes_preview_only (evs : list Event) :
  let st := run evs initialState in
  objectURLs (unmount st) = ∅
  /\ intervals (unmount st) = intervals st
  /\ timeouts (unmount st) = timeouts st
  /\ inflight (unmount st) = inflight st.
Proof.
  intros st.
  destruct (reachable_inv evs) as ([Hurls _] & _). fold st in Hurls.
  revert Hurls. generalize st. clear st.
  intros [sf [u |] pr us urls nu ivs tos nt inf ts]; unfold unmount;
    run_handlers; intros ->; repeat split; try reflexivity.
  apply difference_diag_L.
Qed.

(** While the page says it is loading, some request is in flight. *)
Lemma loading_step (st : State) (ev : Event) :
  previewInv st ->
  (isLoading (uploadStatus st) = true -> exists iv, iv ∈ inflight st) ->
  isLoading (uploadStatus (step st ev)) = true ->
  exists iv, iv ∈ inflight (step st ev).
Proof.
  intros [_ Hfresh] Hinv.
  step_cases st ev Hfresh; cbn; try assumption; try discriminate.
  intros _. exists (nextTimer st). apply elem_of_union_l, elem_of_singleton.
  reflexivity.
Qed.

Lemma loading_run (evs : list Event) (st : State) :
  previewInv st ->
  (isLoading (uploadStatus st) = true -> exists iv, iv ∈ inflight st) ->
  isLoading (uploadStatus (run evs st)) = true ->
  exists iv, iv ∈ inflight (run evs st).
Proof.
  revert st. induction evs as [| ev evs IH]; intros st Hpre Hinv;
    [exact Hinv |].
  cbn [run fold_left]. apply IH; [now apply previewInv_step |].
  now apply loading_step.
Qed.

(** X18: in every state the page can reach, the progress bar is shown only
    while some request is in flight. *)
Theorem progress_bar_means_request (evs : list Event) :
  let st := run evs initialState in
  showsProgress st = true -> exists iv, iv ∈ inflight st.
Proof.
  intros st. apply loading_run; [apply previewInv_initial |].
  discriminate.
Qed.

Lemma progress_bar_means_request_witness :
  exists iv, iv ∈ inflight submitting.
Proof.
  apply (progress_bar_means_request [SelectFile (Some scan); ClickSubmit]).
  reflexivity.
Defined.

Lemma progress_is_a_percentage_witness :
  0 <= progress (uploadStatus submitting) <= 100
  /\ 0 <= Z.min (0 + 5) 90 <= 90.
Proof.
  destruct (progress_is_a_percentage [SelectFile (Some scan); ClickSubmit])
    as [Hp Hc].
  split; [exact Hp |].
  apply (Hc 0%nat 0). reflexivity.
Defined.
